(** * profiles_api/models.py: the user profile model and its manager

    A shallow embedding of [UserProfileManager] and [UserProfile].  The two
    classes are written against Django: [normalize_email], [set_password],
    [save] and the password helpers are inherited, not defined in
    [models.py].  They are embedded here from the framework's definitions,
    quoted above the embedding where they are short, so that the bodies of
    [create_user] and [create_superuser] can be followed line by line.

    Python [str] values are [string]s whose characters stand for the code
    points below 256. *)

From Stdlib Require Import ZArith List String Ascii Bool Arith Lia.
Import ListNotations.

Local Open Scope string_scope.
Local Open Scope bool_scope.
Local Open Scope nat_scope.

(** ** Python strings *)

Module Str.

(** [str.isspace] on one code point: TAB..CR, FS..US, SPACE, NEL, NBSP. *)
Definition isspace (c : ascii) : bool :=
  let n := nat_of_ascii c in
  ((9 <=? n) && (n <=? 13)) || ((28 <=? n) && (n <=? 32))
  || (n =? 133) || (n =? 160).

(** One code point of [str.lower]: A..Z, and the capitals of the Latin-1
    block (all of 192..222 but the multiplication sign 215). *)
Definition lower_char (c : ascii) : ascii :=
  let n := nat_of_ascii c in
  if ((65 <=? n) && (n <=? 90))
     || ((192 <=? n) && (n <=? 222) && negb (n =? 215))
  then ascii_of_nat (n + 32) else c.

Fixpoint lower (s : string) : string :=
  match s with
  | EmptyString => EmptyString
  | String c r => String (lower_char c) (lower r)
  end.

Fixpoint lstrip (s : string) : string :=
  match s with
  | EmptyString => EmptyString
  | String c r => if isspace c then lstrip r else s
  end.

Fixpoint rstrip (s : string) : string :=
  match s with
  | EmptyString => EmptyString
  | String c r =>
      match rstrip r with
      | EmptyString => if isspace c then EmptyString else String c EmptyString
      | r' => String c r'
      end
  end.

(** [s.strip()] with no argument. *)
Definition strip (s : string) : string := rstrip (lstrip s).

(** [s.rsplit(sep, 1)] for a one-character separator: [None] when the
    result has a single element (no separator in [s]), else the text
    before the last separator and the text after it. *)
Fixpoint rsplit1 (sep : ascii) (s : string) : option (string * string) :=
  match s with
  | EmptyString => None
  | String c r =>
      match rsplit1 sep r with
      | Some (a, b) => Some (String c a, b)
      | None => if Ascii.eqb c sep then Some (EmptyString, r) else None
      end
  end.

(** [s.startswith(p)]. *)
Definition startswith (p s : string) : bool := String.prefix p s.

(** [c in s]. *)
Fixpoint contains (c : ascii) (s : string) : bool :=
  match s with
  | EmptyString => false
  | String d r => Ascii.eqb d c || contains c r
  end.

(** Truth value of an optional string: [None] and [''] are false. *)
Definition truthy (s : option string) : bool :=
  match s with
  | None => false
  | Some EmptyString => false
  | Some (String _ _) => true
  end.

(** [s or ''] *)
Definition or_empty (s : option string) : string :=
  match s with
  | Some (String c r) => String c r
  | _ => EmptyString
  end.

End Str.

(** ** Exceptions, results and the computation monad *)

(** The exception classes a caller of the manager can meet.  [ValueError] is
    Python's; [ValidationError] is [django.core.exceptions.ValidationError];
    [IntegrityError] and [DatabaseError] are raised by [django.db]. *)
Inductive exception : Type :=
| ValueError (msg : string)
| ValidationError (msg : string)
| IntegrityError (msg : string)
| DatabaseError (msg : string).

Inductive result (A : Type) : Type :=
| Ok (a : A)
| Raise (e : exception).
Arguments Ok {A} a.
Arguments Raise {A} e.

Definition is_ok {A} (r : result A) : bool :=
  match r with Ok _ => true | Raise _ => false end.

(** ** The user record *)

(** A [UserProfile] object, and a row of its table: the columns of
    [AbstractBaseUser] ([password], [last_login]), of [PermissionsMixin]
    ([is_superuser]) and of the class itself.  [id] is [None] until the
    object has been saved. *)
Record UserProfile : Type := mkUserProfile {
  id : option Z;
  password : string;
  last_login : option Z;
  is_superuser : bool;
  email : string;
  name : string;
  is_active : bool;
  is_staff : bool
}.

Definition set_password_field (v : string) (u : UserProfile) : UserProfile :=
  mkUserProfile (id u) v (last_login u) (is_superuser u)
                (email u) (name u) (is_active u) (is_staff u).

Definition set_id (v : option Z) (u : UserProfile) : UserProfile :=
  mkUserProfile v (password u) (last_login u) (is_superuser u)
                (email u) (name u) (is_active u) (is_staff u).

Definition set_is_superuser (v : bool) (u : UserProfile) : UserProfile :=
  mkUserProfile (id u) (password u) (last_login u) v
                (email u) (name u) (is_active u) (is_staff u).

Definition set_is_staff (v : bool) (u : UserProfile) : UserProfile :=
  mkUserProfile (id u) (password u) (last_login u) (is_superuser u)
                (email u) (name u) (is_active u) v.

(** ** The world a call runs in *)

(** What a call can change: the rows of the [UserProfile] table, in insertion
    order, and how many random strings and how many writes have been asked
    for so far. *)
Record World : Type := mkWorld {
  table : list UserProfile;
  draws : nat;
  writes : nat
}.

(** What a call cannot control: the value of the k-th random string, and
    whether the storage refuses the k-th write for a reason of its own
    (connection lost, storage unavailable). *)
Record Env : Type := mkEnv {
  random_string : nat -> string;
  storage_fails : nat -> bool
}.

(** The configured password hasher: [encode(password, salt)] and
    [verify(password, encoded)].  Which one is configured is a setting. *)
Class Hasher : Type := mkHasher {
  encode : string -> string -> string;
  verify : string -> string -> bool
}.

Definition M (A : Type) : Type := World -> result A * World.

Definition ret {A} (a : A) : M A := fun w => (Ok a, w).

Definition raise {A} (e : exception) : M A := fun w => (Raise e, w).

Definition bind {A B} (m : M A) (f : A -> M B) : M B :=
  fun w =>
    match m w with
    | (Ok a, w') => f a w'
    | (Raise e, w') => (Raise e, w')
    end.

Notation "x <- c1 ;; c2" := (bind c1 (fun x => c2))
  (at level 61, c1 at next level, right associativity).
Notation "' pat <- c1 ;; c2" :=
  (bind c1 (fun x => match x with pat => c2 end))
  (at level 61, pat pattern, c1 at next level, right associativity).

(** A bound method: a computation that may read and update its receiver. *)
Definition Method (A : Type) : Type := UserProfile -> M (A * UserProfile).

(** ** The framework the module is written against *)

Section Manager.

Context (env : Env) {hasher : Hasher}.

(** [django.utils.crypto.get_random_string]: the next random string. *)
Definition get_random_string : M string :=
  fun w => (Ok (random_string env (draws w)),
            mkWorld (table w) (S (draws w)) (writes w)).

Definition UNUSABLE_PASSWORD_PREFIX : string := "!".

(** [django.contrib.auth.hashers.make_password]:
<<
    if password is None:
        return UNUSABLE_PASSWORD_PREFIX + get_random_string(
            UNUSABLE_PASSWORD_SUFFIX_LENGTH)
    hasher = get_hasher(hasher)
    salt = salt or hasher.salt()
    return hasher.encode(password, salt)
>>
    The salt of a hasher is a random string. *)
Definition make_password (password : option string) : M string :=
  match password with
  | None =>
      suffix <- get_random_string ;;
      ret (UNUSABLE_PASSWORD_PREFIX ++ suffix)
  | Some p =>
      salt <- get_random_string ;;
      ret (encode p salt)
  end.

(** [django.contrib.auth.hashers.is_password_usable]:
    [not encoded.startswith(UNUSABLE_PASSWORD_PREFIX)]. *)
Definition is_password_usable (encoded : string) : bool :=
  negb (Str.startswith UNUSABLE_PASSWORD_PREFIX encoded).

(** The value of [django.contrib.auth.hashers.check_password]:
<<
    if password is None or not is_password_usable(encoded):
        return False
    ...
    is_correct = hasher.verify(password, encoded)
    ...
    return is_correct
>>
    (the lines left out re-hash a password that was verified). *)
Definition hashers_check_password
           (raw : option string) (encoded : string) : bool :=
  match raw with
  | None => false
  | Some p =>
      if negb (is_password_usable encoded) then false else verify p encoded
  end.

(** [AbstractBaseUser.set_password]:
    [self.password = make_password(raw_password)]. *)
Definition set_password (raw_password : option string) : Method unit :=
  fun self =>
    encoded <- make_password raw_password ;;
    ret (tt, set_password_field encoded self).

(** [AbstractBaseUser.has_usable_password]. *)
Definition has_usable_password : Method bool :=
  fun self => ret (is_password_usable (password self), self).

(** [AbstractBaseUser.check_password]. *)
Definition check_password (raw_password : option string) : Method bool :=
  fun self => ret (hashers_check_password raw_password (password self), self).

(** *** Saving *)

Definition same_pk (a b : option Z) : bool :=
  match a, b with
  | Some x, Some y => Z.eqb x y
  | _, _ => false
  end.

(** A key above every key in use. *)
Definition fresh_pk (rows : list UserProfile) : Z :=
  (1 + fold_right (fun r m => match id r with
                              | Some k => Z.max k m
                              | None => m
                              end) 0 rows)%Z.

(** [email] is declared [unique=True]: another row holds this email
    (compared as stored, case included). *)
Definition email_taken (self : UserProfile) (rows : list UserProfile) : bool :=
  existsb (fun r => String.eqb (email r) (email self)
                    && negb (same_pk (id r) (id self))) rows.

Definition has_row (k : Z) (rows : list UserProfile) : bool :=
  existsb (fun r => same_pk (id r) (Some k)) rows.

Definition update_row (self : UserProfile) (rows : list UserProfile)
  : list UserProfile :=
  map (fun r => if same_pk (id r) (id self) then self else r) rows.

(** [Model.save(using=...)]: one write.  The storage may refuse it; the
    unique constraint on [email] may reject it; otherwise an object with a
    key that names a row updates that row, and any other object is
    inserted, under a fresh key when it has none.  [save] runs no field
    validation: [max_length] is not checked here. *)
Definition save : Method unit :=
  fun self w =>
    let asked := S (writes w) in
    if storage_fails env (writes w) then
      (Raise (DatabaseError "storage unavailable"),
       mkWorld (table w) (draws w) asked)
    else if email_taken self (table w) then
      (Raise (IntegrityError "UNIQUE constraint failed: userprofile.email"),
       mkWorld (table w) (draws w) asked)
    else
      match id self with
      | Some k =>
          if has_row k (table w) then
            (Ok (tt, self),
             mkWorld (update_row self (table w)) (draws w) asked)
          else
            (Ok (tt, self), mkWorld (table w ++ [self]) (draws w) asked)
      | None =>
          let self' := set_id (Some (fresh_pk (table w))) self in
          (Ok (tt, self'), mkWorld (table w ++ [self']) (draws w) asked)
      end.

(** [BaseUserManager.normalize_email]:
<<
    email = email or ''
    try:
        email_name, domain_part = email.strip().rsplit('@', 1)
    except ValueError:
        pass
    else:
        email = email_name + '@' + domain_part.lower()
    return email
>>
*)
Definition normalize_email (email : option string) : string :=
  let email := Str.or_empty email in
  match Str.rsplit1 "@" (Str.strip email) with
  | None => email
  | Some (email_name, domain_part) =>
      email_name ++ "@" ++ Str.lower domain_part
  end.

(** [self.model(email=email, name=name)]: a new, unsaved object; the other
    columns take their defaults. *)
Definition model (email name : string) : UserProfile :=
  {| id := None; password := ""; last_login := None; is_superuser := false;
     email := email; name := name; is_active := true; is_staff := false |}.

(** ** [UserProfileManager] *)

Definition create_user (email : option string) (name : string)
           (password : option string) : M UserProfile :=
  if negb (Str.truthy email) then
    raise (ValueError "Users must have an email address")
  else
    let email := normalize_email email in
    let user := model email name in
    '(_, user) <- set_password password user ;;
    '(_, user) <- save user ;;
    ret user.

Definition create_superuser (email : option string) (name : string)
           (password : option string) : M UserProfile :=
  user <- create_user email name password ;;
  let user := set_is_superuser true user in
  let user := set_is_staff true user in
  '(_, user) <- save user ;;
  ret user.

(** ** [UserProfile] *)

Definition get_full_name : Method string :=
  fun self => ret (name self, self).

Definition get_short_name : Method string :=
  fun self => ret (name self, self).

Definition __str__ : Method string :=
  fun self => ret (email self, self).

End Manager.

(** ** Vocabulary of the statements *)

Section Vocabulary.

Context (env : Env) {hasher : Hasher}.

(** The storage takes the next write of an object with this email: it is
    available and no row holds the email. *)
Definition accepts (w : World) (e : string) : bool :=
  negb (storage_fails env (writes w))
  && negb (existsb (fun r => String.eqb (email r) e) (table w)).

Definition missing_email : exception :=
  ValueError "Users must have an email address".

Definition unavailable : exception := DatabaseError "storage unavailable".

Definition duplicate : exception :=
  IntegrityError "UNIQUE constraint failed: userprofile.email".

(** The credential [set_password] computes in world [w]. *)
Definition credential (p : option string) (w : World) : string :=
  match p with
  | None => UNUSABLE_PASSWORD_PREFIX ++ random_string env (draws w)
  | Some raw => encode raw (random_string env (draws w))
  end.

(** The object [create_user] hands to [save], and the row it becomes. *)
Definition unsaved_user (e : option string) (n : string) (p : option string)
           (w : World) : UserProfile :=
  set_password_field (credential p w) (model (normalize_email e) n).

Definition saved_user (e : option string) (n : string) (p : option string)
           (w : World) : UserProfile :=
  set_id (Some (fresh_pk (table w))) (unsaved_user e n p w).

Definition promoted (u : UserProfile) : UserProfile :=
  set_is_staff true (set_is_superuser true u).

End Vocabulary.

(** ** Concrete settings, used to run the definitions *)

(** A hasher in the framework's [algorithm$salt$hash] layout. *)
Definition sample_hasher : Hasher :=
  {| encode := fun p salt => "plain$" ++ salt ++ "$" ++ p;
     verify := fun p encoded => String.eqb encoded ("plain$salt$" ++ p) |}.

(** A storage that is always available, and one that is lost after the
    first write. *)
Definition calm : Env :=
  {| random_string := fun _ => "salt"; storage_fails := fun _ => false |}.

Definition flaky : Env :=
  {| random_string := fun _ => "salt"; storage_fails := fun k => k =? 1 |}.

Definition empty_world : World := mkWorld [] 0 0.

Definition ann : UserProfile :=
  {| id := Some 1%Z; password := "plain$salt$pw"; last_login := None;
     is_superuser := false; email := "ann@example.com"; name := "Ann";
     is_active := true; is_staff := false |}.

Definition ann_world : World := mkWorld [ann] 1 1.

(** ** Looking a user up *)

(** The outcomes of [QuerySet.get]: the one matching row, or one of the
    exceptions [DoesNotExist] and [MultipleObjectsReturned]. *)
Inductive lookup : Type :=
| Found (u : UserProfile)
| DoesNotExist
| MultipleObjectsReturned.

(** [USERNAME_FIELD = 'email']: the column that names a user. *)
Definition USERNAME_FIELD : UserProfile -> string := email.

(** [BaseUserManager.get_by_natural_key], on the manager [objects]: the
    framework returns [self.get] of the rows whose [USERNAME_FIELD] column
    is [username]; the value is compared with the column as stored. *)
Definition get_by_natural_key (username : string) (w : World) : lookup :=
  match filter (fun r => String.eqb (USERNAME_FIELD r) username) (table w) with
  | [] => DoesNotExist
  | [u] => Found u
  | _ :: _ :: _ => MultipleObjectsReturned
  end.

(** ** Well-formed tables *)

(** No two rows hold the same email. *)
Definition emails_unique (w : World) : Prop := NoDup (map email (table w)).

(** Every row has a key, and no two rows have the same. *)
Definition keys_unique (w : World) : Prop :=
  Forall (fun r => id r <> None) (table w) /\ NoDup (map id (table w)).

(** A hasher without salt, in the layout of the framework's unsalted ones. *)
Definition unsalted_hasher : Hasher :=
  {| encode := fun p _ => "unsalted$" ++ p;
     verify := fun p encoded => String.eqb encoded ("unsalted$" ++ p) |}.

(** * Properties *)

(** ** Strings *)

Module StrFacts.
Import Str.

Lemma contains_append (c : ascii) (a b : string) :
  contains c (a ++ b) = contains c a || contains c b.
Proof.
  induction a as [|x a IH]; simpl; [reflexivity|].
  rewrite IH. now rewrite orb_assoc.
Qed.

(** Stripping on the left only removes a prefix. *)
Lemma lstrip_suffix (s : string) : exists pre, s = pre ++ lstrip s.
Proof.
  induction s as [|c s [pre IH]]; simpl.
  - now exists "".
  - destruct (isspace c).
    + exists (String c pre). simpl. now rewrite <- IH.
    + now exists "".
Qed.

Lemma rstrip_prefix (s : string) : exists suf, s = rstrip s ++ suf.
Proof.
  induction s as [|c s [suf IH]]; simpl.
  - now exists "".
  - destruct (rstrip s) as [|d r] eqn:E.
    + destruct (isspace c).
      * exists (String c s). reflexivity.
      * exists suf. simpl. simpl in IH. now rewrite <- IH.
    + exists suf. simpl. simpl in IH. now rewrite <- IH.
Qed.

Lemma contains_lstrip (c : ascii) (s : string) :
  contains c s = false -> contains c (lstrip s) = false.
Proof.
  intros H. destruct (lstrip_suffix s) as [pre E].
  rewrite E, contains_append in H. now apply orb_false_elim in H.
Qed.

Lemma contains_rstrip (c : ascii) (s : string) :
  contains c s = false -> contains c (rstrip s) = false.
Proof.
  intros H. destruct (rstrip_prefix s) as [suf E].
  rewrite E, contains_append in H. now apply orb_false_elim in H.
Qed.

Lemma contains_strip (c : ascii) (s : string) :
  contains c s = false -> contains c (strip s) = false.
Proof. intros H. unfold strip. now apply contains_rstrip, contains_lstrip. Qed.

(** What is stripped on the left of [local@rest] is stripped from
    [local]: the separator is not white space. *)
Lemma lstrip_before_at (a b : string) :
  lstrip (a ++ String "@" b) = lstrip a ++ String "@" b.
Proof.
  induction a as [|c a IH]; simpl; [reflexivity|].
  destruct (isspace c); [exact IH | reflexivity].
Qed.

Lemma rstrip_after_at (a b : string) :
  rstrip (a ++ String "@" b) = a ++ String "@" (rstrip b).
Proof.
  induction a as [|c a IH]; simpl.
  - destruct (rstrip b); reflexivity.
  - rewrite IH. destruct a; reflexivity.
Qed.

Lemma strip_around_at (a b : string) :
  strip (a ++ String "@" b) = lstrip a ++ String "@" (rstrip b).
Proof. unfold strip. now rewrite lstrip_before_at, rstrip_after_at. Qed.

Lemma rsplit1_none (c : ascii) (s : string) :
  contains c s = false -> rsplit1 c s = None.
Proof.
  induction s as [|d s IH]; simpl; [reflexivity|].
  intros H. apply orb_false_elim in H as [Hd Hs].
  now rewrite (IH Hs), Hd.
Qed.

(** [rsplit] cuts at the last separator. *)
Lemma rsplit1_last (c : ascii) (a b : string) :
  contains c b = false -> rsplit1 c (a ++ String c b) = Some (a, b).
Proof.
  intros Hb. induction a as [|d a IH]; simpl.
  - now rewrite (rsplit1_none _ _ Hb), Ascii.eqb_refl.
  - now rewrite IH.
Qed.

End StrFacts.

(** ** Saving *)

Section SaveFacts.

Context (env : Env).

Lemma existsb_and_false {A} (f g : A -> bool) (l : list A) :
  existsb f l = false -> existsb (fun x => f x && g x) l = false.
Proof.
  induction l as [|x l IH]; simpl; [reflexivity|].
  intros H. apply orb_false_elim in H as [H1 H2].
  now rewrite H1, (IH H2).
Qed.

Lemma same_pk_None_r (a : option Z) : same_pk a None = false.
Proof. now destruct a. Qed.

Lemma same_pk_refl (k : Z) : same_pk (Some k) (Some k) = true.
Proof. apply Z.eqb_refl. Qed.

(** For an object that has no key yet, every row with its email is in the
    way. *)
Lemma email_taken_unsaved (self : UserProfile) (rows : list UserProfile) :
  id self = None ->
  email_taken self rows
  = existsb (fun r => String.eqb (email r) (email self)) rows.
Proof.
  intros Hid. unfold email_taken. induction rows as [|r rows IH]; simpl.
  - reflexivity.
  - now rewrite IH, Hid, same_pk_None_r, andb_true_r.
Qed.

Lemma fresh_pk_above (rows : list UserProfile) (r : UserProfile) (k : Z) :
  In r rows -> id r = Some k -> (k < fresh_pk rows)%Z.
Proof.
  intros Hin Hk. unfold fresh_pk.
  enough (k <= fold_right (fun r m => match id r with
                                      | Some j => Z.max j m
                                      | None => m
                                      end) 0 rows)%Z by lia.
  induction rows as [|x rows IH]; [contradiction|].
  cbn [fold_right]. destruct Hin as [->|Hin].
  - rewrite Hk. lia.
  - specialize (IH Hin). destruct (id x); lia.
Qed.

Lemma fresh_pk_unused (rows : list UserProfile) (r : UserProfile) :
  In r rows -> same_pk (id r) (Some (fresh_pk rows)) = false.
Proof.
  intros Hin. destruct (id r) as [k|] eqn:Hk; [|reflexivity].
  simpl. apply Z.eqb_neq.
  pose proof (fresh_pk_above rows r k Hin Hk). lia.
Qed.

(** Updating the row that was just inserted under a fresh key touches no
    other row. *)
Lemma update_row_last (rows : list UserProfile) (old self : UserProfile) :
  id old = Some (fresh_pk rows) -> id self = Some (fresh_pk rows) ->
  update_row self (rows ++ [old]) = (rows ++ [self])%list.
Proof.
  intros Ho Hs. unfold update_row. rewrite map_app. simpl.
  rewrite Ho, Hs, same_pk_refl. f_equal.
  rewrite <- (map_id rows) at 2. apply map_ext_in.
  intros r Hin. now rewrite (fresh_pk_unused rows r Hin).
Qed.

Lemma has_row_last (rows : list UserProfile) (old : UserProfile) (k : Z) :
  id old = Some k -> has_row k (rows ++ [old]) = true.
Proof.
  intros Ho. unfold has_row. rewrite existsb_app. simpl.
  now rewrite Ho, same_pk_refl, orb_true_r.
Qed.

(** The three outcomes of saving an object that has no key. *)
Lemma save_unsaved (self : UserProfile) (w : World) :
  id self = None ->
  save env self w =
  if storage_fails env (writes w) then
    (Raise (DatabaseError "storage unavailable"),
     mkWorld (table w) (draws w) (S (writes w)))
  else if existsb (fun r => String.eqb (email r) (email self)) (table w) then
    (Raise (IntegrityError "UNIQUE constraint failed: userprofile.email"),
     mkWorld (table w) (draws w) (S (writes w)))
  else
    let self' := set_id (Some (fresh_pk (table w))) self in
    (Ok (tt, self'), mkWorld (table w ++ [self']) (draws w) (S (writes w))).
Proof.
  intros Hid. unfold save.
  now rewrite (email_taken_unsaved self (table w) Hid), Hid.
Qed.

(** Saving again the object that was just inserted, with other flags:
    only the storage itself can refuse. *)
Lemma save_again (rows : list UserProfile) (old self : UserProfile)
      (d k : nat) :
  id old = Some (fresh_pk rows) -> id self = Some (fresh_pk rows) ->
  email self = email old ->
  existsb (fun r => String.eqb (email r) (email old)) rows = false ->
  save env self (mkWorld (rows ++ [old]) d k) =
  if storage_fails env k then
    (Raise (DatabaseError "storage unavailable"),
     mkWorld (rows ++ [old]) d (S k))
  else (Ok (tt, self), mkWorld (rows ++ [self]) d (S k)).
Proof.
  intros Ho Hs He Hfree. unfold save. simpl.
  destruct (storage_fails env k); [reflexivity|].
  assert (Ht : email_taken self (rows ++ [old]) = false).
  { unfold email_taken. rewrite existsb_app. simpl.
    rewrite Ho, Hs, same_pk_refl. simpl. rewrite andb_false_r, orb_false_r.
    rewrite He. now apply existsb_and_false. }
  rewrite Ht, Hs, (has_row_last rows old _ Ho).
  now rewrite (update_row_last rows old self Ho Hs).
Qed.

End SaveFacts.

(** ** The manager *)

Section ManagerFacts.

Context (env : Env) {hasher : Hasher}.

Lemma create_user_falsy (e : option string) n p w :
  Str.truthy e = false -> create_user env e n p w = (Raise missing_email, w).
Proof. intros H. unfold create_user. now rewrite H. Qed.

Lemma create_superuser_falsy (e : option string) n p w :
  Str.truthy e = false ->
  create_superuser env e n p w = (Raise missing_email, w).
Proof.
  intros H. unfold create_superuser, bind. now rewrite create_user_falsy.
Qed.

(** Every run of [create_user] on a usable email. *)
Lemma create_user_outcome (e : option string) n p w :
  Str.truthy e = true ->
  create_user env e n p w =
  if storage_fails env (writes w) then
    (Raise unavailable, mkWorld (table w) (S (draws w)) (S (writes w)))
  else if existsb (fun r => String.eqb (email r) (normalize_email e))
                  (table w) then
    (Raise duplicate, mkWorld (table w) (S (draws w)) (S (writes w)))
  else
    (Ok (saved_user env e n p w),
     mkWorld (table w ++ [saved_user env e n p w])
             (S (draws w)) (S (writes w))).
Proof.
  intros H. unfold create_user. rewrite H. cbn [negb].
  unfold bind, set_password.
  assert (Hm : make_password env p w
               = (Ok (credential env p w),
                  mkWorld (table w) (S (draws w)) (writes w))).
  { destruct p; reflexivity. }
  unfold bind. rewrite Hm. cbn [ret].
  rewrite save_unsaved by reflexivity. cbn [table draws writes].
  change (email (set_password_field (credential env p w)
                   (model (normalize_email e) n)))
    with (normalize_email e).
  destruct (storage_fails env (writes w)); [reflexivity|].
  destruct (existsb _ (table w)); reflexivity.
Qed.

(** Every run of [create_superuser] on a usable email. *)
Lemma create_superuser_outcome (e : option string) n p w :
  Str.truthy e = true ->
  create_superuser env e n p w =
  if storage_fails env (writes w) then
    (Raise unavailable, mkWorld (table w) (S (draws w)) (S (writes w)))
  else if existsb (fun r => String.eqb (email r) (normalize_email e))
                  (table w) then
    (Raise duplicate, mkWorld (table w) (S (draws w)) (S (writes w)))
  else if storage_fails env (S (writes w)) then
    (Raise unavailable,
     mkWorld (table w ++ [saved_user env e n p w])
             (S (draws w)) (S (S (writes w))))
  else
    (Ok (promoted (saved_user env e n p w)),
     mkWorld (table w ++ [promoted (saved_user env e n p w)])
             (S (draws w)) (S (S (writes w)))).
Proof.
  intros H. unfold create_superuser, bind.
  rewrite (create_user_outcome e n p w H).
  destruct (storage_fails env (writes w)); [reflexivity|].
  destruct (existsb _ (table w)) eqn:Hfree; [reflexivity|].
  cbv beta iota.
  change (set_is_staff true (set_is_superuser true (saved_user env e n p w)))
    with (promoted (saved_user env e n p w)).
  rewrite (save_again env (table w) (saved_user env e n p w)
             (promoted (saved_user env e n p w)))
    by (try reflexivity; exact Hfree).
  destruct (storage_fails env (S (writes w))); reflexivity.
Qed.

Lemma accepts_true (w : World) (e : string) :
  accepts env w e = true <->
  storage_fails env (writes w) = false
  /\ existsb (fun r => String.eqb (email r) e) (table w) = false.
Proof.
  unfold accepts. rewrite andb_true_iff, !negb_true_iff. tauto.
Qed.

(** When the storage accepts the write, [create_user] returns the saved
    record and has appended it to the table. *)
Lemma create_user_accepted (e : option string) n p w :
  Str.truthy e = true -> accepts env w (normalize_email e) = true ->
  create_user env e n p w =
  (Ok (saved_user env e n p w),
   mkWorld (table w ++ [saved_user env e n p w]) (S (draws w)) (S (writes w))).
Proof.
  intros H Ha. apply accepts_true in Ha as [Hs Hf].
  rewrite (create_user_outcome e n p w H). now rewrite Hs, Hf.
Qed.

(** Whatever [create_user] returns is the saved record. *)
Lemma create_user_returned (e : option string) n p w u w' :
  create_user env e n p w = (Ok u, w') ->
  Str.truthy e = true /\ accepts env w (normalize_email e) = true
  /\ u = saved_user env e n p w
  /\ w' = mkWorld (table w ++ [u]) (S (draws w)) (S (writes w)).
Proof.
  destruct (Str.truthy e) eqn:H.
  - rewrite (create_user_outcome e n p w H). intros Hr.
    split; [reflexivity|]. rewrite accepts_true.
    destruct (storage_fails env (writes w)); [discriminate|].
    destruct (existsb _ (table w)); [discriminate|].
    injection Hr as <- <-. repeat split; reflexivity.
  - rewrite (create_user_falsy e n p w H). discriminate.
Qed.

End ManagerFacts.

(** * The claims *)

(** ** Creation without an email *)

(** C1, at an explicit input: [create_user] called with the empty email does
    not fail with [ValidationError('email required')]. *)
Lemma create_user_empty_email_not_ValidationError :
  create_user calm (hasher := sample_hasher) (Some "") "Ann" (Some "pw")
              empty_world
  <> (Raise (ValidationError "email required"), empty_world).
Proof. vm_compute. discriminate. Qed.

(** C1, as amended: with an absent or empty email, [create_user] and
    [create_superuser] both fail with
    [ValueError('Users must have an email address')] and leave the world as
    it was: no row is written, no random string is drawn, no write is
    attempted. *)
Theorem create_user_requires_email
        (env : Env) {hasher : Hasher}
        (e : option string) (n : string) (p : option string) (w : World) :
  e = None \/ e = Some "" ->
  create_user env e n p w
  = (Raise (ValueError "Users must have an email address"), w)
  /\ create_superuser env e n p w
     = (Raise (ValueError "Users must have an email address"), w).
Proof.
  intros He.
  assert (H : Str.truthy e = false) by (destruct He as [-> | ->]; reflexivity).
  split.
  - exact (create_user_falsy env e n p w H).
  - exact (create_superuser_falsy env e n p w H).
Qed.

Lemma create_user_requires_email_witness :
  (@None string = None \/ @None string = Some "")
  /\ create_user calm (hasher := sample_hasher) None "Ann" (Some "pw") ann_world
     = (Raise (ValueError "Users must have an email address"), ann_world)
  /\ create_superuser calm (hasher := sample_hasher) None "Ann" (Some "pw")
                      ann_world
     = (Raise (ValueError "Users must have an email address"), ann_world).
Proof.
  split; [left; reflexivity|].
  apply (create_user_requires_email calm (hasher := sample_hasher)).
  left; reflexivity.
Defined.

(** ** The record [create_user] returns *)

(** C2, at an explicit input: email, name and password are not empty, but a
    row already holds the normalized email, and [create_user] returns no
    record. *)
Lemma create_user_returns_nothing_for_held_email :
  ("ann@EXAMPLE.com" <> "" /\ "Ann" <> "" /\ "pw" <> "")
  /\ ~ (exists u w',
          create_user calm (hasher := sample_hasher)
                      (Some "ann@EXAMPLE.com") "Ann" (Some "pw") ann_world
          = (Ok u, w')).
Proof.
  split; [repeat split; discriminate|].
  intros (u & w' & H). vm_compute in H. discriminate H.
Qed.

(** C2, as amended: for non-empty email, name and password, [create_user]
    returns a record exactly when the storage accepts the write (it is
    available and no row holds the normalized email); every record it
    returns has the normalized email, the given name, and the flags
    [is_active = True], [is_staff = False], [is_superuser = False]; when the
    storage does not accept the write it returns no record, raises the
    error of the storage and leaves the table as it was. *)
Theorem create_user_returns_record
        (env : Env) {hasher : Hasher} (e n p : string) (w : World) :
  e <> "" -> n <> "" -> p <> "" ->
  (forall u w',
      create_user env (Some e) n (Some p) w = (Ok u, w') ->
      email u = normalize_email (Some e)
      /\ name u = n
      /\ is_active u = true /\ is_staff u = false /\ is_superuser u = false)
  /\ (accepts env w (normalize_email (Some e)) = true ->
      exists u w', create_user env (Some e) n (Some p) w = (Ok u, w'))
  /\ (accepts env w (normalize_email (Some e)) = false ->
      exists x w',
        create_user env (Some e) n (Some p) w = (Raise x, w')
        /\ (x = unavailable \/ x = duplicate)
        /\ table w' = table w).
Proof.
  intros He _ _.
  assert (Ht : Str.truthy (Some e) = true)
    by (destruct e; [congruence | reflexivity]).
  split; [|split].
  - intros u w' Hr.
    apply create_user_returned in Hr as (_ & _ & -> & _).
    repeat split; reflexivity.
  - intros Ha.
    rewrite (create_user_accepted env (Some e) n (Some p) w Ht Ha).
    eauto.
  - unfold accepts.
    rewrite (create_user_outcome env (Some e) n (Some p) w Ht).
    destruct (storage_fails env (writes w)); cbn [negb andb].
    + intros _. eexists. eexists. split; [reflexivity|].
      split; [left; reflexivity | reflexivity].
    + destruct (existsb _ (table w)); cbn [negb]; [|discriminate].
      intros _. eexists. eexists. split; [reflexivity|].
      split; [right; reflexivity | reflexivity].
Qed.

Lemma create_user_returns_record_witness :
  ("Ann@Example.COM" <> "" /\ "Ann" <> "" /\ "pw" <> "")
  /\ exists u w',
      create_user calm (hasher := sample_hasher)
                  (Some "Ann@Example.COM") "Ann" (Some "pw") empty_world
      = (Ok u, w')
      /\ email u = "Ann@example.com" /\ name u = "Ann"
      /\ is_active u = true /\ is_staff u = false /\ is_superuser u = false.
Proof.
  split; [repeat split; discriminate|].
  destruct (create_user_returns_record
              calm (hasher := sample_hasher)
              "Ann@Example.COM" "Ann" "pw" empty_world)
    as (Hfields & Hruns & _); try discriminate.
  destruct (Hruns eq_refl) as (u & w' & Hr).
  exists u, w'. split; [exact Hr|].
  exact (Hfields u w' Hr).
Defined.

(** ** Superusers *)

(** C3: every record [create_superuser] returns has [is_staff = True] and
    [is_superuser = True], and so has the row it left in the table; the
    record is the one [create_user] returned, with the two flags set and
    saved again.  [create_superuser] does return whenever the storage accepts
    both writes. *)
Theorem create_superuser_sets_flags
        (env : Env) {hasher : Hasher}
        (e : option string) (n : string) (p : option string) (w : World) :
  (forall u w',
      create_superuser env e n p w = (Ok u, w') ->
      is_staff u = true /\ is_superuser u = true
      /\ In u (table w')
      /\ exists u0 w0,
          create_user env e n p w = (Ok u0, w0)
          /\ u = set_is_staff true (set_is_superuser true u0)
          /\ save env (set_is_staff true (set_is_superuser true u0)) w0
             = (Ok (tt, u), w'))
  /\ (Str.truthy e = true ->
      accepts env w (normalize_email e) = true ->
      storage_fails env (S (writes w)) = false ->
      exists u w', create_superuser env e n p w = (Ok u, w')).
Proof.
  split.
  - intros u w' Hr. unfold create_superuser, bind in Hr.
    destruct (create_user env e n p w) as [[u0|x] w0] eqn:Hc;
      [|discriminate].
    destruct (save env (set_is_staff true (set_is_superuser true u0)) w0)
      as [[[[] u1]|x] w1] eqn:Hs; [|discriminate].
    injection Hr as <- <-.
    assert (Hu : u1 = set_is_staff true (set_is_superuser true u0)).
    { apply create_user_returned in Hc as (_ & _ & -> & ->).
      revert Hs. unfold save. cbn [table draws writes id set_is_staff
                                  set_is_superuser saved_user set_id].
      destruct (storage_fails env _); [discriminate|].
      destruct (email_taken _ _); [discriminate|].
      destruct (has_row _ _); intros H; injection H as <- _; reflexivity. }
    assert (Hin : In u1 (table w1)).
    { apply create_user_returned in Hc as (Ht & Ha & -> & ->).
      apply accepts_true in Ha as [_ Hfree].
      rewrite Hu in *. revert Hs.
      change (set_is_staff true (set_is_superuser true (saved_user env e n p w)))
        with (promoted (saved_user env e n p w)).
      rewrite (save_again env (table w) (saved_user env e n p w)
                 (promoted (saved_user env e n p w)))
        by (try reflexivity; exact Hfree).
      destruct (storage_fails env _); [discriminate|].
      intros H. injection H as <-. cbn [table].
      apply in_or_app. right. left. reflexivity. }
    split; [now rewrite Hu|]. split; [now rewrite Hu|]. split; [exact Hin|].
    exists u0, w0. split; [reflexivity|]. split; [exact Hu|exact Hs].
  - intros Ht Ha Hs2. apply accepts_true in Ha as [Hs1 Hfree].
    rewrite (create_superuser_outcome env e n p w Ht).
    rewrite Hs1, Hfree, Hs2. eauto.
Qed.

Lemma create_superuser_sets_flags_witness :
  exists u w',
    create_superuser calm (hasher := sample_hasher)
                     (Some "root@example.com") "Root" (Some "pw") ann_world
    = (Ok u, w')
    /\ is_staff u = true /\ is_superuser u = true /\ In u (table w').
Proof.
  destruct (create_superuser_sets_flags
              calm (hasher := sample_hasher)
              (Some "root@example.com") "Root" (Some "pw") ann_world)
    as [Hflags Hruns].
  destruct (Hruns eq_refl eq_refl eq_refl) as (u & w' & Hr).
  exists u, w'. split; [exact Hr|].
  destruct (Hflags u w' Hr) as (H1 & H2 & H3 & _).
  repeat split; assumption.
Defined.

(** ** Normalization of the email *)

(** C4, at an explicit input: for the email [' Bob@EXAMPLE.COM'], whose local
    part is [' Bob'], the stored email is ['Bob@example.com']: the local part
    is not left as given. *)
Lemma create_user_strips_local_part :
  exists u w',
    create_user calm (hasher := sample_hasher)
                (Some " Bob@EXAMPLE.COM") "Bob" (Some "pw") empty_world
    = (Ok u, w')
    /\ In u (table w')
    /\ email u = "Bob@example.com"
    /\ email u <> " Bob" ++ "@" ++ Str.lower "EXAMPLE.COM".
Proof.
  eexists. eexists. split; [vm_compute; reflexivity|].
  split; [left; reflexivity|].
  split; [reflexivity | vm_compute; discriminate].
Qed.

(** C4, as amended: for a non-empty email that the storage accepts,
    [create_user] returns and stores a record whose email is
    [normalize_email] of the input: for [local@domain], [domain] being the
    text after the last ['@'], white space is stripped from the left of
    [local] and from the right of [domain], [domain] is put in lower case and
    the rest of [local] is left as given; an email without ['@'] is stored
    unchanged. *)
Theorem create_user_stores_normalized_email
        (env : Env) {hasher : Hasher}
        (e n : string) (p : option string) (w : World) :
  e <> "" ->
  accepts env w (normalize_email (Some e)) = true ->
  exists u w',
    create_user env (Some e) n p w = (Ok u, w')
    /\ In u (table w')
    /\ (forall local domain,
           e = local ++ "@" ++ domain ->
           Str.contains "@" domain = false ->
           email u
           = Str.lstrip local ++ "@" ++ Str.lower (Str.rstrip domain))
    /\ (Str.contains "@" e = false -> email u = e).
Proof.
  intros He Ha.
  assert (Ht : Str.truthy (Some e) = true)
    by (destruct e; [congruence | reflexivity]).
  rewrite (create_user_accepted env (Some e) n p w Ht Ha).
  eexists. eexists. split; [reflexivity|].
  split; [cbn [table]; apply in_or_app; right; left; reflexivity|].
  change (email (saved_user env (Some e) n p w))
    with (normalize_email (Some e)).
  assert (Hor : Str.or_empty (Some e) = e) by (destruct e; reflexivity).
  unfold normalize_email. rewrite Hor. split.
  - intros local domain -> Hd. cbn [append].
    rewrite StrFacts.strip_around_at.
    rewrite (StrFacts.rsplit1_last "@" (Str.lstrip local) (Str.rstrip domain))
      by (now apply StrFacts.contains_rstrip).
    reflexivity.
  - intros Hno.
    now rewrite (StrFacts.rsplit1_none "@" _ (StrFacts.contains_strip _ _ Hno)).
Qed.

Lemma create_user_stores_normalized_email_witness :
  "Ann.Lee@Mail.Example.ORG" <> ""
  /\ exists u w',
      create_user calm (hasher := sample_hasher)
                  (Some "Ann.Lee@Mail.Example.ORG") "Ann" None ann_world
      = (Ok u, w')
      /\ In u (table w')
      /\ email u = "Ann.Lee@mail.example.org".
Proof.
  split; [discriminate|].
  destruct (create_user_stores_normalized_email
              calm (hasher := sample_hasher)
              "Ann.Lee@Mail.Example.ORG" "Ann" None ann_world)
    as (u & w' & Hr & Hin & Hat & _); [discriminate | reflexivity |].
  exists u, w'. split; [exact Hr|]. split; [exact Hin|].
  exact (Hat "Ann.Lee" "Mail.Example.ORG" eq_refl eq_refl).
Defined.

(** ** Atomicity *)

(** C5, at an explicit input: when the storage is lost after the first write,
    [create_superuser] fails and the table keeps the record [create_user]
    wrote, without privileges. *)
Lemma create_superuser_leaves_plain_record :
  let r := create_superuser flaky (hasher := sample_hasher)
                            (Some "root@example.com") "Root" (Some "pw")
                            empty_world in
  fst r = Raise (DatabaseError "storage unavailable")
  /\ table (snd r)
     = [ {| id := Some 1%Z; password := "plain$salt$pw"; last_login := None;
            is_superuser := false; email := "root@example.com";
            name := "Root"; is_active := true; is_staff := false |} ]
  /\ table (snd r) <> table empty_world.
Proof.
  vm_compute. repeat split; discriminate.
Qed.

(** C5, as amended: [create_user] writes once: if it fails the table is as
    it was (a missing email fails before anything is attempted), and if it
    succeeds the table has gained exactly the returned record.
    [create_superuser] writes twice, outside any transaction.  If it
    succeeds the table has gained exactly the returned, privileged record.
    If it fails after [create_user] failed, it fails with the same error and
    the table is as it was.  If it fails after [create_user] succeeded, it is
    the second write that the storage refused, and the table has gained the
    record of [create_user], without privileges; and this is what happens
    whenever [create_user] succeeds and the storage refuses the next
    write. *)
Theorem creation_writes
        (env : Env) {hasher : Hasher}
        (e : option string) (n : string) (p : option string) (w : World) :
  (forall x w', create_user env e n p w = (Raise x, w') -> table w' = table w)
  /\ (forall u w', create_user env e n p w = (Ok u, w') ->
                   table w' = (table w ++ [u])%list)
  /\ (forall u w', create_superuser env e n p w = (Ok u, w') ->
                   table w' = (table w ++ [u])%list
                   /\ is_staff u = true /\ is_superuser u = true)
  /\ (forall x w',
         create_superuser env e n p w = (Raise x, w') ->
         match create_user env e n p w with
         | (Raise y, _) => x = y /\ table w' = table w
         | (Ok u0, w0) =>
             x = unavailable
             /\ storage_fails env (writes w0) = true
             /\ table w' = (table w ++ [u0])%list
             /\ table w' <> table w
             /\ is_staff u0 = false /\ is_superuser u0 = false
         end)
  /\ (forall u0 w0,
         create_user env e n p w = (Ok u0, w0) ->
         storage_fails env (writes w0) = true ->
         exists w',
           create_superuser env e n p w = (Raise unavailable, w')
           /\ table w' = (table w ++ [u0])%list
           /\ table w' <> table w
           /\ is_staff u0 = false /\ is_superuser u0 = false).
Proof.
  assert (Hgrow : forall (l : list UserProfile) (u : UserProfile),
             (l ++ [u])%list <> l).
  { intros l u E. apply (f_equal (@List.length UserProfile)) in E.
    rewrite length_app in E. simpl in E. lia. }
  assert (Hsame : forall (x0 : exception) (w1 : World),
             table w1 = table w ->
             let failed := (@Raise UserProfile x0, w1) in
             (forall x w', failed = (Raise x, w') -> table w' = table w)
             /\ (forall u w', failed = (Ok u, w') ->
                              table w' = (table w ++ [u])%list)
             /\ (forall u w', failed = (Ok u, w') ->
                              table w' = (table w ++ [u])%list
                              /\ is_staff u = true /\ is_superuser u = true)
             /\ (forall x w',
                    failed = (Raise x, w') ->
                    x = x0 /\ table w' = table w)
             /\ (forall u0 w0,
                    failed = (Ok u0, w0) ->
                    storage_fails env (writes w0) = true ->
                    exists w',
                      failed = (Raise unavailable, w')
                      /\ table w' = (table w ++ [u0])%list
                      /\ table w' <> table w
                      /\ is_staff u0 = false /\ is_superuser u0 = false)).
  { intros x0 w1 Hw1. cbv zeta.
    split; [intros x w' H; injection H as _ <-; exact Hw1|].
    split; [discriminate|]. split; [discriminate|].
    split; [|discriminate].
    intros x w' H; injection H as <- <-. split; [reflexivity | exact Hw1]. }
  destruct (Str.truthy e) eqn:Ht.
  - rewrite (create_user_outcome env e n p w Ht).
    rewrite (create_superuser_outcome env e n p w Ht).
    destruct (storage_fails env (writes w)); [now apply Hsame|].
    destruct (existsb _ (table w)); [now apply Hsame|].
    split; [discriminate|].
    split; [intros u w' H; injection H as <- <-; reflexivity|].
    cbn [writes].
    destruct (storage_fails env (S (writes w))) eqn:Hs2.
    + split; [discriminate|]. split.
      * intros x w' H; injection H as <- <-. cbn [table].
        split; [reflexivity|]. split; [reflexivity|].
        split; [reflexivity|]. split; [apply Hgrow|].
        split; reflexivity.
      * intros u0 w0 H _; injection H as <- <-.
        eexists. split; [reflexivity|]. cbn [table].
        split; [reflexivity|]. split; [apply Hgrow|]. split; reflexivity.
    + split.
      { intros u w' H; injection H as <- <-.
        split; [reflexivity|]. split; reflexivity. }
      split; [discriminate|].
      intros u0 w0 H; injection H as <- <-. cbn [writes].
      rewrite Hs2. discriminate.
  - rewrite (create_user_falsy env e n p w Ht).
    rewrite (create_superuser_falsy env e n p w Ht).
    now apply Hsame.
Qed.

Lemma creation_writes_witness :
  exists u0 w0 w',
    create_user flaky (hasher := sample_hasher)
                (Some "root@example.com") "Root" (Some "pw") empty_world
    = (Ok u0, w0)
    /\ storage_fails flaky (writes w0) = true
    /\ create_superuser flaky (hasher := sample_hasher)
                        (Some "root@example.com") "Root" (Some "pw")
                        empty_world
       = (Raise unavailable, w')
    /\ table w' = [u0]
    /\ is_staff u0 = false /\ is_superuser u0 = false.
Proof.
  destruct (creation_writes flaky (hasher := sample_hasher)
              (Some "root@example.com") "Root" (Some "pw") empty_world)
    as (_ & _ & _ & _ & Hsecond).
  pose (u0 := saved_user flaky (hasher := sample_hasher)
                         (Some "root@example.com") "Root" (Some "pw")
                         empty_world).
  destruct (Hsecond u0 (mkWorld [u0] 1 1) eq_refl eq_refl)
    as (w' & Hr & Ht & _ & Hs & Hp).
  exists u0, (mkWorld [u0] 1 1), w'.
  split; [reflexivity|]. split; [reflexivity|].
  split; [exact Hr|]. split; [exact Ht|]. split; assumption.
Defined.

(** ** The stored credential *)

(** What is stored for a given password is what the configured hasher
    encodes, under the salt that was drawn: whether it can coincide with the
    password is a property of that hasher alone. *)
Lemma create_user_credential
      (env : Env) {hasher : Hasher}
      (e : option string) (n raw : string) (w : World) (u : UserProfile)
      (w' : World) :
  create_user env e n (Some raw) w = (Ok u, w') ->
  password u = encode raw (random_string env (draws w)).
Proof.
  intros Hr. apply create_user_returned in Hr as (_ & _ & -> & _).
  reflexivity.
Qed.

(** A credential made of the marker and a random suffix is not usable. *)
Lemma marked_unusable (suffix : string) :
  is_password_usable (UNUSABLE_PASSWORD_PREFIX ++ suffix) = false.
Proof. destruct suffix; reflexivity. Qed.

(** C7: called without a password, on a non-empty email that the storage
    accepts, [create_user] returns a record that is in the table, has no
    usable password, and passes [check_password] for no password at all. *)
Theorem create_user_without_password
        (env : Env) {hasher : Hasher} (e n : string) (w : World) :
  e <> "" ->
  accepts env w (normalize_email (Some e)) = true ->
  exists u w',
    create_user env (Some e) n None w = (Ok u, w')
    /\ In u (table w')
    /\ (forall w1, has_usable_password u w1 = (Ok (false, u), w1))
    /\ (forall raw w1, check_password raw u w1 = (Ok (false, u), w1)).
Proof.
  intros He Ha.
  assert (Ht : Str.truthy (Some e) = true)
    by (destruct e; [congruence | reflexivity]).
  rewrite (create_user_accepted env (Some e) n None w Ht Ha).
  eexists. eexists. split; [reflexivity|].
  split; [cbn [table]; apply in_or_app; right; left; reflexivity|].
  assert (Hu : is_password_usable
                 (password (saved_user env (Some e) n None w)) = false)
    by apply marked_unusable.
  split.
  - intros w1. unfold has_usable_password, ret. now rewrite Hu.
  - intros raw w1. unfold check_password, hashers_check_password, ret.
    rewrite Hu. now destruct raw.
Qed.

Lemma create_user_without_password_witness :
  "Ann@example.com" <> ""
  /\ exists u w',
      create_user calm (hasher := sample_hasher)
                  (Some "Ann@example.com") "Ann" None empty_world
      = (Ok u, w')
      /\ In u (table w')
      /\ password u = "!salt"
      /\ check_password (hasher := sample_hasher) (Some "!salt") u w'
         = (Ok (false, u), w').
Proof.
  split; [discriminate|].
  destruct (create_user_without_password
              calm (hasher := sample_hasher)
              "Ann@example.com" "Ann" empty_world)
    as (u & w' & Hr & Hin & _ & Hcheck); [discriminate | reflexivity |].
  exists u, w'. split; [exact Hr|]. split; [exact Hin|].
  split; [|apply Hcheck].
  vm_compute in Hr. injection Hr as <- _. reflexivity.
Defined.

(** ** The accessors *)

(** C8: [get_full_name] and [get_short_name] both return the stored name and
    leave the record and the world as they were. *)
Theorem names_are_the_stored_name (u : UserProfile) (w : World) :
  get_full_name u w = (Ok (name u, u), w)
  /\ get_short_name u w = (Ok (name u, u), w).
Proof.
  split.
  - unfold get_full_name, ret. reflexivity.
  - unfold get_short_name, ret. reflexivity.
Qed.

(** C9: the string representation of a record is its email. *)
Theorem str_is_the_email (u : UserProfile) (w : World) :
  __str__ u w = (Ok (email u, u), w).
Proof. unfold __str__, ret. reflexivity. Qed.

(** ** What [create_user] checks *)

(** C10, at an explicit input: with a row for ['ann@example.com'] in the
    table, [create_user] called with that non-empty email raises. *)
Lemma create_user_raises_on_taken_email :
  Str.truthy (Some "ann@example.com") = true
  /\ create_user calm (hasher := sample_hasher)
                 (Some "ann@example.com") "Ann" (Some "pw") ann_world
     = (Raise (IntegrityError "UNIQUE constraint failed: userprofile.email"),
        mkWorld [ann] 2 2).
Proof. split; reflexivity. Qed.

(** C10, as amended: [create_user] raises its own error, the [ValueError],
    if and only if the email is absent or empty, and that is all it checks:
    for any other email, whatever its form, any name and any password or
    none, it succeeds exactly when the storage accepts the write, and
    otherwise raises the error of the storage. *)
Theorem create_user_checks_email_only
        (env : Env) {hasher : Hasher}
        (e : option string) (n : string) (p : option string) (w : World) :
  ((exists msg, fst (create_user env e n p w) = Raise (ValueError msg))
   <-> Str.truthy e = false)
  /\ (Str.truthy e = true ->
      is_ok (fst (create_user env e n p w))
      = accepts env w (normalize_email e)
      /\ forall x, fst (create_user env e n p w) = Raise x ->
                   x = unavailable \/ x = duplicate).
Proof.
  destruct (Str.truthy e) eqn:Ht.
  - rewrite (create_user_outcome env e n p w Ht). unfold accepts.
    destruct (storage_fails env (writes w)); cbn [fst negb andb is_ok].
    { split; [split; [intros [msg H]; discriminate | discriminate]|].
      intros _. split; [reflexivity|].
      intros x H; injection H as <-; left; reflexivity. }
    destruct (existsb _ (table w)); cbn [fst negb is_ok].
    { split; [split; [intros [msg H]; discriminate | discriminate]|].
      intros _. split; [reflexivity|].
      intros x H; injection H as <-; right; reflexivity. }
    split; [split; [intros [msg H]; discriminate | discriminate]|].
    intros _. split; [reflexivity | discriminate].
  - rewrite (create_user_falsy env e n p w Ht). split; [|discriminate].
    split; [reflexivity|]. intros _. eexists. reflexivity.
Qed.

Lemma create_user_checks_email_only_witness :
  Str.truthy (Some "no at sign") = true
  /\ is_ok (fst (create_user calm (hasher := sample_hasher)
                             (Some "no at sign") "" None ann_world))
     = true.
Proof.
  split; [reflexivity|].
  destruct (create_user_checks_email_only
              calm (hasher := sample_hasher)
              (Some "no at sign") "" None ann_world) as [_ Hsave].
  destruct (Hsave eq_refl) as [Hok _].
  rewrite Hok. reflexivity.
Defined.

(** * Further properties *)

(** ** Normal forms of emails *)

Module NormalForm.
Import Str StrFacts.

Lemma isspace_lower_char (c : ascii) : isspace (lower_char c) = isspace c.
Proof. destruct c as [[] [] [] [] [] [] [] []]; vm_compute; reflexivity. Qed.

Lemma lower_char_idem (c : ascii) : lower_char (lower_char c) = lower_char c.
Proof. destruct c as [[] [] [] [] [] [] [] []]; vm_compute; reflexivity. Qed.

Lemma lower_char_at (c : ascii) :
  Ascii.eqb (lower_char c) "@" = Ascii.eqb c "@".
Proof. destruct c as [[] [] [] [] [] [] [] []]; vm_compute; reflexivity. Qed.

Lemma lower_idem (s : string) : lower (lower s) = lower s.
Proof.
  induction s as [|c s IH]; simpl; [reflexivity|].
  now rewrite lower_char_idem, IH.
Qed.

Lemma contains_at_lower (s : string) : contains "@" (lower s) = contains "@" s.
Proof.
  induction s as [|c s IH]; simpl; [reflexivity|].
  now rewrite lower_char_at, IH.
Qed.

(** Lower case and stripping on the right commute: no letter becomes white
    space, and no white space a letter. *)
Lemma rstrip_lower (s : string) : rstrip (lower s) = lower (rstrip s).
Proof.
  induction s as [|c s IH]; simpl; [reflexivity|].
  rewrite IH. destruct (rstrip s) as [|d r]; simpl.
  - rewrite isspace_lower_char. now destruct (isspace c).
  - reflexivity.
Qed.

Lemma lstrip_idem (s : string) : lstrip (lstrip s) = lstrip s.
Proof.
  induction s as [|c s IH]; simpl; [reflexivity|].
  destruct (isspace c) eqn:E; [exact IH|]. simpl. now rewrite E.
Qed.

Lemma rstrip_idem (s : string) : rstrip (rstrip s) = rstrip s.
Proof.
  induction s as [|c s IH]; simpl; [reflexivity|].
  destruct (rstrip s) as [|d r] eqn:E.
  - destruct (isspace c) eqn:Ec; simpl; [reflexivity|]. now rewrite Ec.
  - cbn [rstrip]. fold rstrip. cbn [rstrip] in IH. fold rstrip in IH.
    now rewrite IH.
Qed.

(** What starts without white space still does after stripping on the
    right. *)
Lemma lstrip_rstrip_fixed (s : string) :
  lstrip s = s -> lstrip (rstrip s) = rstrip s.
Proof.
  destruct s as [|c s]; [reflexivity|]. simpl.
  destruct (isspace c) eqn:Ec.
  - intros H. exfalso.
    destruct (lstrip_suffix s) as [pre Hpre].
    assert (Hlen : String.length (lstrip s) <= String.length s).
    { rewrite Hpre at 2. clear. induction pre; simpl; lia. }
    rewrite H in Hlen. simpl in Hlen. lia.
  - intros _. destruct (rstrip s); simpl; now rewrite Ec.
Qed.

Lemma strip_idem (s : string) : strip (strip s) = strip s.
Proof.
  unfold strip.
  rewrite (lstrip_rstrip_fixed (lstrip s) (lstrip_idem s)).
  apply rstrip_idem.
Qed.

(** [rsplit] returns the two sides of the last separator. *)
Lemma rsplit1_some (c : ascii) (s a b : string) :
  rsplit1 c s = Some (a, b) ->
  s = a ++ String c b /\ contains c b = false.
Proof.
  revert a. induction s as [|d s IH]; simpl; [discriminate|].
  intros a. destruct (rsplit1 c s) as [[a' b']|] eqn:E.
  - intros H. injection H as <- <-.
    destruct (IH a' eq_refl) as [-> Hb]. split; [reflexivity | exact Hb].
  - destruct (Ascii.eqb d c) eqn:Ed; [|discriminate].
    intros H. injection H as <- <-. apply Ascii.eqb_eq in Ed as ->.
    split; [reflexivity|].
    clear IH. induction s as [|x s IHs]; [reflexivity|].
    simpl in E. destruct (rsplit1 c s) as [[? ?]|]; [discriminate|].
    destruct (Ascii.eqb x c) eqn:Ex; [discriminate|].
    simpl. rewrite Ex. now apply IHs.
Qed.

(** Two texts cut at their last separator are equal only if both sides
    are. *)
Lemma cut_inj (c : ascii) (a1 b1 a2 b2 : string) :
  contains c b1 = false -> contains c b2 = false ->
  a1 ++ String c b1 = a2 ++ String c b2 -> a1 = a2 /\ b1 = b2.
Proof.
  intros H1 H2 E.
  pose proof (rsplit1_last c a1 b1 H1) as R1.
  pose proof (rsplit1_last c a2 b2 H2) as R2.
  rewrite E, R2 in R1. injection R1 as <- <-. split; reflexivity.
Qed.

End NormalForm.

(** ** Runs of the manager *)

(** Whatever [create_superuser] returns is the saved record, promoted. *)
Lemma create_superuser_returned
      (env : Env) {hasher : Hasher}
      (e : option string) n p w u w' :
  create_superuser env e n p w = (Ok u, w') ->
  Str.truthy e = true /\ accepts env w (normalize_email e) = true
  /\ storage_fails env (S (writes w)) = false
  /\ u = promoted (saved_user env e n p w)
  /\ w' = mkWorld (table w ++ [u]) (S (draws w)) (S (S (writes w))).
Proof.
  destruct (Str.truthy e) eqn:H.
  - rewrite (create_superuser_outcome env e n p w H). intros Hr.
    split; [reflexivity|]. rewrite accepts_true.
    destruct (storage_fails env (writes w)); [discriminate|].
    destruct (existsb _ (table w)); [discriminate|].
    destruct (storage_fails env (S (writes w))); [discriminate|].
    injection Hr as <- <-. repeat split; reflexivity.
  - rewrite (create_superuser_falsy env e n p w H). discriminate.
Qed.

(** The table after any run of [create_user], failed or not. *)
Lemma create_user_table
      (env : Env) {hasher : Hasher}
      (e : option string) n p w r w' :
  create_user env e n p w = (r, w') ->
  table w' = table w
  \/ (existsb (fun x => String.eqb (email x) (normalize_email e)) (table w)
      = false
      /\ table w' = (table w ++ [saved_user env e n p w])%list).
Proof.
  destruct (Str.truthy e) eqn:H.
  - rewrite (create_user_outcome env e n p w H).
    destruct (storage_fails env (writes w));
      [intros Hr; injection Hr as _ <-; left; reflexivity|].
    destruct (existsb _ (table w)) eqn:Hf;
      intros Hr; injection Hr as _ <-; [left | right; split]; reflexivity.
  - rewrite (create_user_falsy env e n p w H).
    intros Hr; injection Hr as _ <-; left; reflexivity.
Qed.

(** The table after any run of [create_superuser], failed or not. *)
Lemma create_superuser_table
      (env : Env) {hasher : Hasher}
      (e : option string) n p w r w' :
  create_superuser env e n p w = (r, w') ->
  table w' = table w
  \/ (existsb (fun x => String.eqb (email x) (normalize_email e)) (table w)
      = false
      /\ (table w' = (table w ++ [saved_user env e n p w])%list
          \/ table w'
             = (table w ++ [promoted (saved_user env e n p w)])%list)).
Proof.
  destruct (Str.truthy e) eqn:H.
  - rewrite (create_superuser_outcome env e n p w H).
    destruct (storage_fails env (writes w));
      [intros Hr; injection Hr as _ <-; left; reflexivity|].
    destruct (existsb _ (table w)) eqn:Hf;
      [intros Hr; injection Hr as _ <-; left; reflexivity|].
    destruct (storage_fails env (S (writes w)));
      intros Hr; injection Hr as _ <-; right; split; auto.
  - rewrite (create_superuser_falsy env e n p w H).
    intros Hr; injection Hr as _ <-; left; reflexivity.
Qed.

(** ** [normalize_email], as [create_user] uses it *)

Lemma or_empty_Some (s : string) : Str.or_empty (Some s) = s.
Proof. destruct s; reflexivity. Qed.

Lemma normalize_email_at (l d : string) :
  Str.contains "@" d = false ->
  normalize_email (Some (l ++ "@" ++ d))
  = Str.lstrip l ++ "@" ++ Str.lower (Str.rstrip d).
Proof.
  intros Hd. unfold normalize_email. rewrite or_empty_Some. cbn [append].
  rewrite StrFacts.strip_around_at.
  rewrite (StrFacts.rsplit1_last "@" (Str.lstrip l) (Str.rstrip d))
    by (now apply StrFacts.contains_rstrip).
  reflexivity.
Qed.

Lemma normalize_email_nonempty (e : option string) :
  Str.truthy e = true -> normalize_email e <> "".
Proof.
  destruct e as [[|c r]|]; try discriminate. intros _.
  unfold normalize_email. cbn [Str.or_empty].
  destruct (Str.rsplit1 "@" (Str.strip (String c r))) as [[a b]|].
  - destruct a; discriminate.
  - discriminate.
Qed.

Lemma normalize_email_idem (e : option string) :
  normalize_email (Some (normalize_email e)) = normalize_email e.
Proof.
  unfold normalize_email at 2 3.
  destruct (Str.rsplit1 "@" (Str.strip (Str.or_empty e))) as [[a b]|] eqn:E.
  - apply NormalForm.rsplit1_some in E as [Es Hb].
    assert (Hfix : Str.strip (a ++ String "@" b) = a ++ String "@" b)
      by (rewrite <- Es; apply NormalForm.strip_idem).
    rewrite StrFacts.strip_around_at in Hfix.
    apply NormalForm.cut_inj in Hfix as [Ha Hrb];
      [| now apply StrFacts.contains_rstrip | exact Hb].
    assert (Hl : Str.contains "@" (Str.lower b) = false)
      by (now rewrite NormalForm.contains_at_lower).
    rewrite (normalize_email_at a (Str.lower b) Hl).
    now rewrite Ha, NormalForm.rstrip_lower, Hrb, NormalForm.lower_idem.
  - unfold normalize_email. rewrite or_empty_Some, E. reflexivity.
Qed.

(** X1: the email of a record that [create_user] or [create_superuser]
    returned is in normal form: normalizing it again changes nothing. *)
Theorem stored_email_is_normal
        (env : Env) {hasher : Hasher}
        (e : option string) (n : string) (p : option string)
        (w : World) (u : UserProfile) (w' : World) :
  create_user env e n p w = (Ok u, w')
  \/ create_superuser env e n p w = (Ok u, w') ->
  normalize_email (Some (email u)) = email u.
Proof.
  intros [Hr | Hr].
  - apply create_user_returned in Hr as (_ & _ & -> & _).
    apply normalize_email_idem.
  - apply create_superuser_returned in Hr as (_ & _ & _ & -> & _).
    apply normalize_email_idem.
Qed.

Lemma stored_email_is_normal_witness :
  exists u w',
    create_user calm (hasher := sample_hasher)
                (Some "  Ann@Example.ORG ") "Ann" (Some "pw") ann_world
    = (Ok u, w')
    /\ email u = "Ann@example.org"
    /\ normalize_email (Some (email u)) = email u.
Proof.
  eexists. eexists. split; [vm_compute; reflexivity|].
  split; [reflexivity|].
  eapply (stored_email_is_normal calm (hasher := sample_hasher)
            (Some "  Ann@Example.ORG ") "Ann" (Some "pw") ann_world).
  left. vm_compute. reflexivity.
Defined.

(** ** One account per email *)

(** What a successful creation, by either operation, leaves behind. *)
Lemma created_row
      (env : Env) {hasher : Hasher}
      (e : option string) n p w u w' :
  create_user env e n p w = (Ok u, w')
  \/ create_superuser env e n p w = (Ok u, w') ->
  table w' = (table w ++ [u])%list
  /\ email u = normalize_email e
  /\ existsb (fun r => String.eqb (email r) (normalize_email e)) (table w)
     = false.
Proof.
  intros [Hr | Hr].
  - apply create_user_returned in Hr as (_ & Ha & -> & ->).
    apply accepts_true in Ha as [_ Hf]. repeat split; try reflexivity; exact Hf.
  - apply create_superuser_returned in Hr as (_ & Ha & _ & -> & ->).
    apply accepts_true in Ha as [_ Hf]. repeat split; try reflexivity; exact Hf.
Qed.

Lemma existsb_email_last (rows : list UserProfile) (u : UserProfile) :
  existsb (fun r => String.eqb (email r) (email u)) (rows ++ [u]) = true.
Proof.
  rewrite existsb_app. simpl. now rewrite String.eqb_refl, !orb_true_r.
Qed.

(** Creating an account for an email that normalizes to an address some row
    holds fails without writing. *)
Lemma held_email_is_rejected
      (env : Env) {hasher : Hasher}
      (e : option string) (n : string) (p : option string) (w : World) :
  normalize_email e <> "" ->
  existsb (fun r => String.eqb (email r) (normalize_email e)) (table w)
  = true ->
  let x := if storage_fails env (writes w) then unavailable else duplicate in
  let after := mkWorld (table w) (S (draws w)) (S (writes w)) in
  create_user env e n p w = (Raise x, after)
  /\ create_superuser env e n p w = (Raise x, after).
Proof.
  intros Hne Hheld.
  assert (Ht : Str.truthy e = true).
  { destruct e as [[|c r]|]; try reflexivity; now elim Hne. }
  cbv zeta.
  rewrite (create_user_outcome env e n p w Ht).
  rewrite (create_superuser_outcome env e n p w Ht).
  rewrite Hheld. destruct (storage_fails env (writes w)); split; reflexivity.
Qed.

(** X2: once an account was created, by [create_user] or by
    [create_superuser], any further creation whose email normalizes to the
    same address fails and writes nothing: with the storage's
    [IntegrityError] when the storage is available, with its own error when
    it is not. *)
Theorem second_creation_is_rejected
        (env : Env) {hasher : Hasher}
        (e1 : option string) (n1 : string) (p1 : option string)
        (e2 : option string) (n2 : string) (p2 : option string)
        (w : World) (u : UserProfile) (w' : World) :
  create_user env e1 n1 p1 w = (Ok u, w')
  \/ create_superuser env e1 n1 p1 w = (Ok u, w') ->
  normalize_email e2 = normalize_email e1 ->
  let x := if storage_fails env (writes w') then unavailable else duplicate in
  let after := mkWorld (table w') (S (draws w')) (S (writes w')) in
  create_user env e2 n2 p2 w' = (Raise x, after)
  /\ create_superuser env e2 n2 p2 w' = (Raise x, after).
Proof.
  intros Hr Hn.
  assert (Ht1 : Str.truthy e1 = true).
  { destruct Hr as [Hr | Hr].
    - now apply create_user_returned in Hr.
    - now apply create_superuser_returned in Hr. }
  apply created_row in Hr as (Ht & He & _).
  apply held_email_is_rejected.
  - rewrite Hn. now apply normalize_email_nonempty.
  - rewrite Ht, Hn, <- He. apply existsb_email_last.
Qed.

Lemma second_creation_is_rejected_witness :
  exists u w',
    create_superuser calm (hasher := sample_hasher)
                     (Some "root@Example.com") "Root" (Some "pw") empty_world
    = (Ok u, w')
    /\ create_user calm (hasher := sample_hasher)
                   (Some " root@EXAMPLE.COM") "Other" None w'
       = (Raise duplicate, mkWorld (table w') 2 3).
Proof.
  eexists. eexists. split; [vm_compute; reflexivity|].
  refine (proj1 (second_creation_is_rejected
                   calm (hasher := sample_hasher)
                   (Some "root@Example.com") "Root" (Some "pw")
                   (Some " root@EXAMPLE.COM") "Other" None
                   empty_world _ _ _ _)).
  - right. vm_compute. reflexivity.
  - vm_compute. reflexivity.
Defined.

(** X3: the domain of an email is compared without regard to case: after an
    account was created for [local@domain1], creating one for
    [local@domain2] is rejected as a duplicate whenever the two domains are
    equal in lower case. *)
Theorem domain_case_is_ignored
        (env : Env) {hasher : Hasher}
        (l d1 d2 n1 n2 : string) (p1 p2 : option string)
        (w : World) (u : UserProfile) (w' : World) :
  Str.contains "@" d1 = false -> Str.contains "@" d2 = false ->
  Str.lower d2 = Str.lower d1 ->
  create_user env (Some (l ++ "@" ++ d1)) n1 p1 w = (Ok u, w') ->
  storage_fails env (writes w') = false ->
  create_user env (Some (l ++ "@" ++ d2)) n2 p2 w'
  = (Raise duplicate, mkWorld (table w') (S (draws w')) (S (writes w'))).
Proof.
  intros H1 H2 Hd Hr Hs.
  assert (Hn : normalize_email (Some (l ++ "@" ++ d2))
               = normalize_email (Some (l ++ "@" ++ d1))).
  { rewrite (normalize_email_at l d1 H1), (normalize_email_at l d2 H2).
    now rewrite <- !NormalForm.rstrip_lower, Hd. }
  assert (Ht : Str.truthy (Some (l ++ "@" ++ d1)) = true)
    by (now apply create_user_returned in Hr).
  pose proof (created_row env _ n1 p1 w u w' (or_introl Hr))
    as (Htab & He & _).
  destruct (held_email_is_rejected env (Some (l ++ "@" ++ d2)) n2 p2 w')
    as [Hc _].
  - rewrite Hn. now apply normalize_email_nonempty.
  - rewrite Htab, Hn, <- He. apply existsb_email_last.
  - now rewrite Hs in Hc.
Qed.

Lemma domain_case_is_ignored_witness :
  exists u w',
    create_user calm (hasher := sample_hasher)
                (Some ("Ann" ++ "@" ++ "Example.org")) "Ann" (Some "pw")
                empty_world
    = (Ok u, w')
    /\ create_user calm (hasher := sample_hasher)
                   (Some ("Ann" ++ "@" ++ "EXAMPLE.ORG")) "Ann B." None w'
       = (Raise duplicate, mkWorld (table w') 2 2).
Proof.
  eexists. eexists. split; [vm_compute; reflexivity|].
  refine (domain_case_is_ignored
            calm (hasher := sample_hasher)
            "Ann" "Example.org" "EXAMPLE.ORG" "Ann" "Ann B." (Some "pw") None
            empty_world _ _ _ _ _ _ _); vm_compute; reflexivity.
Defined.

(** X4: the part before the ['@'] is compared as written, white space on its
    left apart: after an account was created for [local1@domain1], an
    account for [local2@domain2] with another local part is not taken for a
    duplicate of it; if no earlier row holds its address and the storage is
    available, it is created, and the table then holds both, under different
    emails. *)
Theorem local_parts_are_distinguished
        (env : Env) {hasher : Hasher}
        (l1 d1 l2 d2 n1 n2 : string) (p1 p2 : option string)
        (w : World) (u1 : UserProfile) (w1 : World) :
  Str.contains "@" d1 = false -> Str.contains "@" d2 = false ->
  Str.lstrip l1 <> Str.lstrip l2 ->
  create_user env (Some (l1 ++ "@" ++ d1)) n1 p1 w = (Ok u1, w1) ->
  existsb (fun r => String.eqb (email r)
                      (normalize_email (Some (l2 ++ "@" ++ d2)))) (table w)
  = false ->
  storage_fails env (writes w1) = false ->
  exists u2 w2,
    create_user env (Some (l2 ++ "@" ++ d2)) n2 p2 w1 = (Ok u2, w2)
    /\ In u1 (table w2) /\ In u2 (table w2) /\ email u1 <> email u2.
Proof.
  intros H1 H2 Hl Hr Hfree Hs.
  pose proof (created_row env _ n1 p1 w u1 w1 (or_introl Hr))
    as (Htab & He & _).
  assert (Hne : normalize_email (Some (l1 ++ "@" ++ d1))
                <> normalize_email (Some (l2 ++ "@" ++ d2))).
  { rewrite (normalize_email_at l1 d1 H1), (normalize_email_at l2 d2 H2).
    cbn [append]. intros E. apply NormalForm.cut_inj in E as [E _].
    - now apply Hl.
    - rewrite NormalForm.contains_at_lower.
      now apply StrFacts.contains_rstrip.
    - rewrite NormalForm.contains_at_lower.
      now apply StrFacts.contains_rstrip. }
  assert (Ha : accepts env w1 (normalize_email (Some (l2 ++ "@" ++ d2)))
               = true).
  { apply accepts_true. split; [exact Hs|].
    rewrite Htab, existsb_app, Hfree. simpl. rewrite orb_false_r.
    apply String.eqb_neq. now rewrite He. }
  assert (Ht : Str.truthy (Some (l2 ++ "@" ++ d2)) = true)
    by (destruct l2; reflexivity).
  rewrite (create_user_accepted env _ n2 p2 w1 Ht Ha).
  eexists. eexists. split; [reflexivity|]. cbn [table].
  split; [apply in_or_app; left; rewrite Htab; apply in_or_app; right;
          left; reflexivity|].
  split; [apply in_or_app; right; left; reflexivity|].
  now rewrite He.
Qed.

Lemma local_parts_are_distinguished_witness :
  exists u1 w1 u2 w2,
    create_user calm (hasher := sample_hasher)
                (Some ("Ann" ++ "@" ++ "example.org")) "Ann" (Some "pw")
                empty_world
    = (Ok u1, w1)
    /\ create_user calm (hasher := sample_hasher)
                   (Some ("ann" ++ "@" ++ "example.org")) "Ann" (Some "pw") w1
       = (Ok u2, w2)
    /\ In u1 (table w2) /\ In u2 (table w2) /\ email u1 <> email u2.
Proof.
  eexists. eexists.
  destruct (local_parts_are_distinguished
              calm (hasher := sample_hasher)
              "Ann" "example.org" "ann" "example.org" "Ann" "Ann"
              (Some "pw") (Some "pw") empty_world
              (saved_user calm (hasher := sample_hasher)
                          (Some "Ann@example.org") "Ann" (Some "pw")
                          empty_world)
              (mkWorld [saved_user calm (hasher := sample_hasher)
                                   (Some "Ann@example.org") "Ann"
                                   (Some "pw") empty_world] 1 1))
    as (u2 & w2 & Hr & Hrest);
    try (vm_compute; reflexivity); try (vm_compute; discriminate).
  exists u2, w2. split; [vm_compute; reflexivity|].
  split; [exact Hr | exact Hrest].
Defined.

(** ** Invariants of the table *)

Lemma email_not_held (rows : list UserProfile) (e : string) :
  existsb (fun r => String.eqb (email r) e) rows = false ->
  ~ In e (map email rows).
Proof.
  induction rows as [|r rows IH]; simpl; [tauto|].
  intros H. apply orb_false_elim in H as [Hr Hrows].
  apply String.eqb_neq in Hr. intros [E | Hin]; [now apply Hr | now apply IH].
Qed.

Lemma NoDup_snoc {A} (l : list A) (x : A) :
  NoDup l -> ~ In x l -> NoDup (l ++ [x]).
Proof.
  intros Hl Hx. induction Hl as [|y l Hy Hl IH]; simpl.
  - constructor; [tauto | constructor].
  - constructor.
    + intros Hin. apply in_app_or in Hin as [Hin | [-> | []]].
      * now apply Hy.
      * apply Hx. now left.
    + apply IH. intros Hin. apply Hx. now right.
Qed.

(** X5: [create_user] and [create_superuser] keep the emails of the table
    pairwise distinct, however they end. *)
Theorem creation_keeps_emails_unique
        (env : Env) {hasher : Hasher}
        (e : option string) (n : string) (p : option string)
        (w : World) (r : result UserProfile) (w' : World) :
  emails_unique w ->
  create_user env e n p w = (r, w')
  \/ create_superuser env e n p w = (r, w') ->
  emails_unique w'.
Proof.
  unfold emails_unique. intros Hw [Hr | Hr].
  - apply create_user_table in Hr as [-> | [Hfree ->]]; [exact Hw|].
    rewrite map_app. apply NoDup_snoc; [exact Hw|].
    now apply email_not_held.
  - apply create_superuser_table in Hr as [-> | [Hfree [-> | ->]]];
      [exact Hw | |];
      rewrite map_app; apply NoDup_snoc; try exact Hw;
      now apply email_not_held.
Qed.

Lemma creation_keeps_emails_unique_witness :
  exists u w',
    create_superuser calm (hasher := sample_hasher)
                     (Some "root@example.com") "Root" (Some "pw") ann_world
    = (Ok u, w')
    /\ emails_unique w'.
Proof.
  eexists. eexists. split; [vm_compute; reflexivity|].
  eapply (creation_keeps_emails_unique
            calm (hasher := sample_hasher)
            (Some "root@example.com") "Root" (Some "pw") ann_world).
  - unfold emails_unique. simpl. constructor; [simpl; tauto | constructor].
  - right. vm_compute. reflexivity.
Defined.

Lemma fresh_pk_not_held (rows : list UserProfile) :
  ~ In (Some (fresh_pk rows)) (map id rows).
Proof.
  intros Hin. apply in_map_iff in Hin as (r & Hid & Hr).
  pose proof (fresh_pk_above rows r (fresh_pk rows) Hr Hid). lia.
Qed.

(** X6: [create_user] and [create_superuser] keep the table keyed: every
    row has a key and no two rows have the same, however the call ends; and
    the key of a record they return was the key of no row before. *)
Theorem creation_keeps_keys_unique
        (env : Env) {hasher : Hasher}
        (e : option string) (n : string) (p : option string)
        (w : World) (r : result UserProfile) (w' : World) :
  keys_unique w ->
  create_user env e n p w = (r, w')
  \/ create_superuser env e n p w = (r, w') ->
  keys_unique w'
  /\ forall u, r = Ok u ->
               id u <> None
               /\ forall row, In row (table w) -> id row <> id u.
Proof.
  unfold keys_unique. intros [Hsome Hdup] Hr.
  assert (Hnew : forall u : UserProfile,
             id u = Some (fresh_pk (table w)) ->
             Forall (fun x => id x <> None) (table w ++ [u])
             /\ NoDup (map id (table w ++ [u]))).
  { intros u Hu. split.
    - apply Forall_app. split; [exact Hsome|].
      constructor; [now rewrite Hu | constructor].
    - rewrite map_app. apply NoDup_snoc; [exact Hdup|].
      simpl. rewrite Hu. apply fresh_pk_not_held. }
  assert (Hfresh : forall u : UserProfile,
             id u = Some (fresh_pk (table w)) ->
             id u <> None
             /\ forall row, In row (table w) -> id row <> id u).
  { intros u Hu. split; [now rewrite Hu|].
    intros row Hin E. apply (fresh_pk_not_held (table w)).
    rewrite <- Hu, <- E. now apply in_map. }
  split.
  - destruct Hr as [Hr | Hr].
    + apply create_user_table in Hr as [-> | [_ ->]]; [now split|].
      now apply Hnew.
    + apply create_superuser_table in Hr as [-> | [_ [-> | ->]]];
        [now split | |]; now apply Hnew.
  - intros u ->. destruct Hr as [Hr | Hr].
    + apply create_user_returned in Hr as (_ & _ & -> & _). now apply Hfresh.
    + apply create_superuser_returned in Hr as (_ & _ & _ & -> & _).
      now apply Hfresh.
Qed.

Lemma creation_keeps_keys_unique_witness :
  exists u w',
    create_user calm (hasher := sample_hasher)
                (Some "bob@example.com") "Bob" None ann_world
    = (Ok u, w')
    /\ keys_unique w' /\ id u = Some 2%Z.
Proof.
  eexists. eexists. split; [vm_compute; reflexivity|].
  split; [|reflexivity].
  refine (proj1 (creation_keeps_keys_unique
                   calm (hasher := sample_hasher)
                   (Some "bob@example.com") "Bob" None ann_world _ _ _ _)).
  - unfold keys_unique. simpl. split.
    + constructor; [discriminate | constructor].
    + constructor; [simpl; tauto | constructor].
  - left. vm_compute. reflexivity.
Defined.

(** ** Looking up what was created *)

Lemma filter_nothing {A} (f : A -> bool) (l : list A) :
  existsb f l = false -> filter f l = [].
Proof.
  induction l as [|x l IH]; simpl; [reflexivity|].
  intros H. apply orb_false_elim in H as [Hx Hl]. now rewrite Hx, IH.
Qed.

(** X7: a record created by [create_user] or [create_superuser] is the one
    [get_by_natural_key] finds under the normalized email, which is the
    email of the record. *)
Theorem created_user_is_found
        (env : Env) {hasher : Hasher}
        (e : option string) (n : string) (p : option string)
        (w : World) (u : UserProfile) (w' : World) :
  create_user env e n p w = (Ok u, w')
  \/ create_superuser env e n p w = (Ok u, w') ->
  get_by_natural_key (normalize_email e) w' = Found u
  /\ get_by_natural_key (email u) w' = Found u.
Proof.
  intros Hr. apply created_row in Hr as (Ht & He & Hfree).
  rewrite He. split; unfold get_by_natural_key, USERNAME_FIELD;
    rewrite Ht, filter_app, (filter_nothing _ _ Hfree); simpl;
    now rewrite He, String.eqb_refl.
Qed.

Lemma created_user_is_found_witness :
  exists u w',
    create_superuser calm (hasher := sample_hasher)
                     (Some "Root@EXAMPLE.com") "Root" (Some "pw") ann_world
    = (Ok u, w')
    /\ get_by_natural_key "Root@example.com" w' = Found u.
Proof.
  eexists. eexists. split; [vm_compute; reflexivity|].
  refine (proj1 (created_user_is_found
                   calm (hasher := sample_hasher)
                   (Some "Root@EXAMPLE.com") "Root" (Some "pw")
                   ann_world _ _ _)).
  right. vm_compute. reflexivity.
Defined.

(** X8: the lookup compares with the email as stored: when normalization
    changed the email given to [create_user], and no earlier row holds the
    email as given, looking the new account up under the email as given
    finds nothing. *)
Theorem lookup_needs_the_normal_form
        (env : Env) {hasher : Hasher}
        (e n : string) (p : option string)
        (w : World) (u : UserProfile) (w' : World) :
  create_user env (Some e) n p w = (Ok u, w') ->
  normalize_email (Some e) <> e ->
  existsb (fun r => String.eqb (email r) e) (table w) = false ->
  get_by_natural_key e w' = DoesNotExist.
Proof.
  intros Hr Hne Hfree.
  pose proof (created_row env _ n p w u w' (or_introl Hr)) as (Ht & He & _).
  unfold get_by_natural_key, USERNAME_FIELD.
  rewrite Ht, filter_app, (filter_nothing _ _ Hfree). simpl.
  rewrite He. apply String.eqb_neq in Hne. now rewrite Hne.
Qed.

Lemma lookup_needs_the_normal_form_witness :
  exists u w',
    create_user calm (hasher := sample_hasher)
                (Some "Bob@Example.COM") "Bob" (Some "pw") ann_world
    = (Ok u, w')
    /\ get_by_natural_key "Bob@Example.COM" w' = DoesNotExist.
Proof.
  eexists. eexists. split; [vm_compute; reflexivity|].
  eapply (lookup_needs_the_normal_form
            calm (hasher := sample_hasher)
            "Bob@Example.COM" "Bob" (Some "pw") ann_world).
  - vm_compute. reflexivity.
  - vm_compute. discriminate.
  - vm_compute. reflexivity.
Defined.

Lemma filter_unique_email (rows : list UserProfile) (a : string) :
  NoDup (map email rows) ->
  filter (fun r => String.eqb (email r) a) rows = []
  \/ exists u, filter (fun r => String.eqb (email r) a) rows = [u].
Proof.
  induction rows as [|r rows IH]; simpl; [now left|].
  intros Hnd. inversion Hnd as [|? ? Hnot Hnd']; subst.
  destruct (String.eqb (email r) a) eqn:E.
  - right. exists r. f_equal. apply String.eqb_eq in E.
    destruct (filter (fun x => String.eqb (email x) a) rows) as [|x l] eqn:F;
      [reflexivity|]. exfalso.
    assert (Hin : In x (filter (fun x => String.eqb (email x) a) rows))
      by (rewrite F; now left).
    apply filter_In in Hin as [Hin Hx]. apply String.eqb_eq in Hx.
    apply Hnot. rewrite E, <- Hx. now apply in_map.
  - now apply IH.
Qed.

(** X9: in a table whose emails are pairwise distinct, which is what the
    two creations maintain, [get_by_natural_key] is never ambiguous: it
    finds a record exactly when that record is in the table under the given
    email, and finds nothing exactly when no row holds the email. *)
Theorem lookup_is_unambiguous (a : string) (w : World) :
  emails_unique w ->
  get_by_natural_key a w <> MultipleObjectsReturned
  /\ (forall u, get_by_natural_key a w = Found u
                <-> In u (table w) /\ email u = a)
  /\ (get_by_natural_key a w = DoesNotExist
      <-> forall r, In r (table w) -> email r <> a).
Proof.
  unfold emails_unique, get_by_natural_key, USERNAME_FIELD. intros Hnd.
  assert (Hmem : forall u,
             In u (filter (fun r => String.eqb (email r) a) (table w))
             <-> In u (table w) /\ email u = a).
  { intros u. rewrite filter_In, String.eqb_eq. tauto. }
  destruct (filter_unique_email (table w) a Hnd) as [F | [v F]];
    rewrite F in *.
  - split; [discriminate|]. split.
    + intros u. split; [discriminate|]. intros Hu.
      now apply Hmem in Hu.
    + split; [|reflexivity]. intros _ r Hr Ha.
      now apply (proj2 (Hmem r)).
  - assert (Hv : In v (table w) /\ email v = a)
      by (apply Hmem; now left).
    split; [discriminate|]. split.
    + intros u. split.
      * intros H. injection H as <-. exact Hv.
      * intros Hu. apply Hmem in Hu as [-> | []]. reflexivity.
    + split; [discriminate|]. intros Hno. exfalso.
      now apply (Hno v (proj1 Hv)).
Qed.

Lemma lookup_is_unambiguous_witness :
  emails_unique ann_world
  /\ get_by_natural_key "ann@example.com" ann_world = Found ann
  /\ get_by_natural_key "bob@example.com" ann_world = DoesNotExist.
Proof.
  assert (H : emails_unique ann_world).
  { unfold emails_unique. simpl. constructor; [simpl; tauto | constructor]. }
  split; [exact H|].
  destruct (lookup_is_unambiguous "ann@example.com" ann_world H)
    as (_ & Hfound & _).
  destruct (lookup_is_unambiguous "bob@example.com" ann_world H)
    as (_ & _ & Hnone).
  split.
  - apply Hfound. split; [left; reflexivity | reflexivity].
  - apply Hnone. intros r [<- | []]. discriminate.
Defined.

(** ** Passwords *)

(** X10: with a hasher that verifies what it encodes and whose encodings do
    not start with the unusable-password mark, a record created with a
    password has a usable password, passes [check_password] for that
    password and fails it for no password; for [create_user] and
    [create_superuser] alike. *)
Theorem created_user_can_authenticate
        (env : Env) {hasher : Hasher}
        (e : option string) (n raw : string)
        (w : World) (u : UserProfile) (w' : World) :
  (forall salt, verify raw (encode raw salt) = true) ->
  (forall salt, Str.startswith UNUSABLE_PASSWORD_PREFIX (encode raw salt)
                = false) ->
  create_user env e n (Some raw) w = (Ok u, w')
  \/ create_superuser env e n (Some raw) w = (Ok u, w') ->
  (forall w1, has_usable_password u w1 = (Ok (true, u), w1))
  /\ (forall w1, check_password (Some raw) u w1 = (Ok (true, u), w1))
  /\ (forall w1, check_password None u w1 = (Ok (false, u), w1)).
Proof.
  intros Hverify Hmark Hr.
  assert (Hp : password u = encode raw (random_string env (draws w))).
  { destruct Hr as [Hr | Hr].
    - now apply create_user_returned in Hr as (_ & _ & -> & _).
    - now apply create_superuser_returned in Hr as (_ & _ & _ & -> & _). }
  assert (Hu : is_password_usable (password u) = true).
  { unfold is_password_usable. now rewrite Hp, Hmark. }
  repeat split; intros w1.
  - unfold has_usable_password, ret. now rewrite Hu.
  - unfold check_password, hashers_check_password, ret.
    rewrite Hu. cbn [negb]. now rewrite Hp, Hverify.
Qed.

Lemma created_user_can_authenticate_witness :
  exists u w',
    create_user calm (hasher := unsalted_hasher)
                (Some "ann@example.com") "Ann" (Some "pw") empty_world
    = (Ok u, w')
    /\ check_password (hasher := unsalted_hasher) (Some "pw") u w'
       = (Ok (true, u), w').
Proof.
  eexists. eexists. split; [vm_compute; reflexivity|].
  refine (proj1 (proj2 (created_user_can_authenticate
                          calm (hasher := unsalted_hasher)
                          (Some "ann@example.com") "Ann" "pw"
                          empty_world _ _ _ _ _)) _).
  - intros salt. reflexivity.
  - intros salt. reflexivity.
  - left. vm_compute. reflexivity.
Defined.

(** X11: [create_superuser] also takes no password: when the storage accepts
    both writes it then creates an account with both privileges whose
    password is unusable, one that [check_password] accepts for no
    candidate. *)
Theorem superuser_without_password
        (env : Env) {hasher : Hasher} (e n : string) (w : World) :
  e <> "" ->
  accepts env w (normalize_email (Some e)) = true ->
  storage_fails env (S (writes w)) = false ->
  exists u w',
    create_superuser env (Some e) n None w = (Ok u, w')
    /\ In u (table w')
    /\ is_staff u = true /\ is_superuser u = true
    /\ (forall w1, has_usable_password u w1 = (Ok (false, u), w1))
    /\ (forall raw w1, check_password raw u w1 = (Ok (false, u), w1)).
Proof.
  intros He Ha Hs.
  assert (Ht : Str.truthy (Some e) = true)
    by (destruct e; [congruence | reflexivity]).
  rewrite (create_superuser_outcome env (Some e) n None w Ht).
  apply accepts_true in Ha as [Hs1 Hfree]. rewrite Hs1, Hfree, Hs.
  eexists. eexists. split; [reflexivity|].
  split; [cbn [table]; apply in_or_app; right; left; reflexivity|].
  split; [reflexivity|]. split; [reflexivity|].
  assert (Hu : is_password_usable
                 (password (promoted (saved_user env (Some e) n None w)))
               = false) by apply marked_unusable.
  split.
  - intros w1. unfold has_usable_password, ret. now rewrite Hu.
  - intros raw w1. unfold check_password, hashers_check_password, ret.
    rewrite Hu. now destruct raw.
Qed.

Lemma superuser_without_password_witness :
  "root@example.com" <> ""
  /\ exists u w',
      create_superuser calm (hasher := sample_hasher)
                       (Some "root@example.com") "Root" None ann_world
      = (Ok u, w')
      /\ is_superuser u = true
      /\ check_password (hasher := sample_hasher) (Some "") u w'
         = (Ok (false, u), w').
Proof.
  split; [discriminate|].
  destruct (superuser_without_password
              calm (hasher := sample_hasher)
              "root@example.com" "Root" ann_world)
    as (u & w' & Hr & _ & _ & Hsu & _ & Hcheck);
    [discriminate | reflexivity | reflexivity |].
  exists u, w'. split; [exact Hr|]. split; [exact Hsu | apply Hcheck].
Defined.

(** ** When [create_superuser] fails *)

(** X12: for an email that is not empty, [create_superuser] succeeds exactly
    when the storage accepts the first write and does not refuse the second;
    the only errors it raises are the storage's own and the
    [IntegrityError], and the latter only for an email that a row held
    before the call: its second save is never taken for a duplicate. *)
Theorem create_superuser_failures
        (env : Env) {hasher : Hasher}
        (e : option string) (n : string) (p : option string) (w : World) :
  Str.truthy e = true ->
  is_ok (fst (create_superuser env e n p w))
  = accepts env w (normalize_email e)
    && negb (storage_fails env (S (writes w)))
  /\ forall x,
      fst (create_superuser env e n p w) = Raise x ->
      x = unavailable
      \/ (x = duplicate
          /\ existsb (fun r => String.eqb (email r) (normalize_email e))
                     (table w) = true).
Proof.
  intros Ht. rewrite (create_superuser_outcome env e n p w Ht).
  unfold accepts.
  destruct (storage_fails env (writes w)); cbn [fst negb andb is_ok].
  { split; [reflexivity|]. intros x H; injection H as <-; now left. }
  destruct (existsb _ (table w)); cbn [fst negb andb is_ok].
  { split; [reflexivity|]. intros x H; injection H as <-; now right. }
  destruct (storage_fails env (S (writes w))); cbn [fst negb andb is_ok].
  - split; [reflexivity|]. intros x H; injection H as <-; now left.
  - split; [reflexivity | discriminate].
Qed.

Lemma create_superuser_failures_witness :
  Str.truthy (Some "root@example.com") = true
  /\ is_ok (fst (create_superuser flaky (hasher := sample_hasher)
                                  (Some "root@example.com") "Root" None
                                  empty_world))
     = false.
Proof.
  split; [reflexivity|].
  destruct (create_superuser_failures
              flaky (hasher := sample_hasher)
              (Some "root@example.com") "Root" None empty_world eq_refl)
    as [Hok _].
  rewrite Hok. reflexivity.
Defined.
